(** * pyopenbadges: credentials, validity, JSON-LD emission and proofs

    A shallow embedding of [pyopenbadges/models/credential.py] together
    with a model of the proof subsystem (signing and verification of
    credentials) that the credential methods delegate to.

    Layout:
    - [Py]        : the few Python notions the code relies on (exceptions,
                    values, [datetime] with naive and aware readings);
    - [Model]     : the pydantic classes of [credential.py] and their
                    validators, [is_valid], [model_dump], [to_json_ld];
    - [ProofSubsystem] : canonicalise / sign / verify over an object store;
    - theorems, grouped by the property they establish. *)

From stdpp Require Import gmap strings list fin_maps pretty.
From Stdlib Require Import ZArith Lia.
From Stdlib Require Strings.Byte Strings.String.
From Stdlib Require Import Strings.Ascii.

Set Warnings "-register-all".
Open Scope Z_scope.
Open Scope string_scope.

(* ===================================================================== *)
(** ** Python preliminaries *)
(* ===================================================================== *)

Module Py.

(** Exceptions that cross a call boundary.  The first three are Python's
    own; the next four are the error taxonomy of the proof subsystem and
    of schema validation.  [InvalidReference] is not a Python exception:
    it is the model's answer to a reference that designates no object of
    the store, which no Python program can produce. *)
Inductive exn : Type :=
  | ValueError (msg : string)
  | TypeError (msg : string)
  | KeyError (key : string)
  | MissingProof
  | DuplicateProof
  | UnsupportedProofType
  | UnsupportedSchemaType
  | InvalidReference.

(** A call either returns or raises. *)
Inductive result (A : Type) : Type :=
  | Ok (a : A)
  | Err (e : exn).
Arguments Ok {A} a.
Arguments Err {A} e.

#[export] Instance result_ret : MRet result := fun _ a => Ok a.
#[export] Instance result_bind : MBind result := fun _ _ k m =>
  match m with
  | Ok a => k a
  | Err e => Err e
  end.

(** [datetime]: a wall-clock reading (microseconds on the proleptic
    calendar) and, for an aware value, its UTC offset.  [datetime.now()]
    called without a time zone yields a naive value. *)
Inductive datetime : Type :=
  | Naive (wall : Z)
  | Aware (wall : Z) (utcoffset : Z).

Definition datetime_now (clock : Z) : datetime := Naive clock.

(** [a < b] on datetimes.  Two naive values compare by their readings,
    two aware values by their UTC instants; Python refuses to order a
    naive against an aware value. *)
Definition datetime_lt (a b : datetime) : result bool :=
  match a, b with
  | Naive x, Naive y => Ok (Z.ltb x y)
  | Aware x ox, Aware y oy => Ok (Z.ltb (x - ox) (y - oy))
  | _, _ => Err (TypeError "can't compare offset-naive and offset-aware datetimes")
  end.

(** Truth value of an [Optional[bool]]: [None] and [False] are falsy. *)
Definition truthy (o : option bool) : bool :=
  match o with
  | Some true => true
  | _ => false
  end.

(** Values that can sit in a [Dict[str, Any]] or in the output of
    [model_dump]: JSON-like data plus the [Url] and [datetime] objects that
    the python-mode dump leaves as they are. *)
Inductive value : Type :=
  | VNone
  | VBool (b : bool)
  | VInt (n : Z)
  | VStr (s : string)
  | VUrl (u : string)
  | VDatetime (d : datetime)
  | VList (l : list value)
  | VDict (m : gmap string value).

(** [k in d] for a dict. *)
Definition has_key (k : string) (d : gmap string value) : bool :=
  bool_decide (is_Some (d !! k)).

(** [v == s] for a string literal [s]: only a [str] equals a [str]. *)
Definition eq_str (v : value) (s : string) : bool :=
  match v with
  | VStr t => bool_decide (t = s)
  | _ => false
  end.

End Py.
Import Py.

(* ===================================================================== *)
(** ** The data model of [credential.py] *)
(* ===================================================================== *)

Module Model.

(** [HttpUrl]: a validated URL; [str(u)] is its text. *)
Inductive HttpUrl : Type := Url (text : string).
Definition url_str (u : HttpUrl) : string := let 'Url s := u in s.

(** Modelled from the spec: the [Profile] class, whose module
    [models/profile.py] is imported by [credential.py].  The credential
    code reads its [id] and [type] only; whatever else a dump of the
    object holds is kept in [profile_fields]. *)
Record Profile : Type := {
  profile_id : HttpUrl;
  profile_type : value;
  profile_fields : gmap string value;
}.

(** Modelled from the spec: the [Achievement] class of
    [models/achievement.py], likewise; the credential code reads its [id]
    only. *)
Record Achievement : Type := {
  achievement_id : HttpUrl;
  achievement_fields : gmap string value;
}.

Record Evidence : Type := {
  evidence_id : option HttpUrl;
  evidence_type : string;
  evidence_name : option string;
  evidence_description : option string;
  evidence_narrative : option string;
  evidence_genre : option string;
}.

(** [Union[HttpUrl, Dict[str, Any], Achievement]] *)
Inductive achievement_ref : Type :=
  | AchievementUrl (u : HttpUrl)
  | AchievementDict (d : gmap string value)
  | AchievementObj (a : Achievement).

Record AchievementSubject : Type := {
  subject_id : string;
  subject_type : string;
  achievement : achievement_ref;
  subject_name : option string;
}.

Record Proof : Type := {
  proof_type : string;
  created : datetime;
  verificationMethod : HttpUrl;
  proofPurpose : string;
  proofValue : string;
}.

(** [Union[HttpUrl, Dict[str, Any], Profile]] *)
Inductive issuer_ref : Type :=
  | IssuerUrl (u : HttpUrl)
  | IssuerDict (d : gmap string value)
  | IssuerObj (p : Profile).

(** [OpenBadgeCredential]: the fields the class declares. *)
Record OpenBadgeCredential : Type := {
  credential_id : HttpUrl;
  credential_type : list string;
  issuer : issuer_ref;
  issuanceDate : datetime;
  credentialSubject : AchievementSubject;
  credential_name : option string;
  credential_description : option string;
  proof : option Proof;
  expirationDate : option datetime;
  revoked : option bool;
  revocationReason : option string;
  evidence : option (list Evidence);
}.

(** *** Field validators *)

(** [validate_type]: the value is already a list when the validator runs
    (the field is a [List[str]]), so the wrapping branch is not taken. *)
Definition validate_type (v : list string) : result (list string) :=
  if negb (bool_decide ("VerifiableCredential" ∈ v)) then
    Err (ValueError "Le type doit inclure 'VerifiableCredential'")
  else if negb (bool_decide ("OpenBadgeCredential" ∈ v)) then
    Err (ValueError "Le type doit inclure 'OpenBadgeCredential'")
  else Ok v.

(** [validate_issuer]: a dict tagged ['Profile'] that has an ['id'] and no
    ['name'] receives a default name; anything else passes through. *)
Definition validate_issuer (v : issuer_ref) : issuer_ref :=
  match v with
  | IssuerDict d =>
      if has_key "type" d
         && from_option (λ t, eq_str t "Profile") false (d !! "type")
         && has_key "id" d
         && negb (has_key "name" d)
      then IssuerDict (<["name" := VStr "Unnamed Issuer"]> d)
      else IssuerDict d
  | _ => v
  end.

(** [validate_achievement] of [AchievementSubject].  When the validator
    runs, the value is a URL, a dict or an [Achievement] object; a URL is
    taken by the [isinstance(v, HttpUrl)] test, so the only value left for
    the [else] branch is a dict without ['id']. *)
Definition validate_achievement (v : achievement_ref) : result achievement_ref :=
  match v with
  | AchievementObj _ => Ok v
  | AchievementDict d =>
      if has_key "id" d then Ok v
      else Err (ValueError
        "L'achievement doit être une URL, un objet Achievement ou un dictionnaire avec un champ 'id'")
  | AchievementUrl _ => Ok v
  end.

(** Construction of an [AchievementSubject], from the point where
    pydantic has parsed the fields to their declared types: the validator
    of the class runs on them.  What pydantic rejects before that point (a
    missing or ill-typed field) never reaches this stage and is no part
    of the model. *)
Definition AchievementSubject_init (fields : AchievementSubject)
  : result AchievementSubject :=
  a ← validate_achievement (achievement fields);
  mret {| subject_id := subject_id fields;
          subject_type := subject_type fields;
          achievement := a;
          subject_name := subject_name fields |}.

(** Construction of an [OpenBadgeCredential], from the point where
    pydantic has parsed every field to its declared type: the two
    validators of the class run on them.  What pydantic rejects before
    that point (a missing field, a string that is no URL, a subject that
    its own validator refuses) never reaches this stage and is no part of
    the model. *)
Definition OpenBadgeCredential_init (fields : OpenBadgeCredential)
  : result OpenBadgeCredential :=
  ty ← validate_type (credential_type fields);
  mret {| credential_id := credential_id fields;
          credential_type := ty;
          issuer := validate_issuer (issuer fields);
          issuanceDate := issuanceDate fields;
          credentialSubject := credentialSubject fields;
          credential_name := credential_name fields;
          credential_description := credential_description fields;
          proof := proof fields;
          expirationDate := expirationDate fields;
          revoked := revoked fields;
          revocationReason := revocationReason fields;
          evidence := evidence fields |}.

(** The constructor called with keywords: those that name a declared
    field are the [fields]; pydantic ignores the others ([extra] is
    ['ignore'] unless a class says otherwise, and this one does not). *)
Definition OpenBadgeCredential_new (fields : OpenBadgeCredential)
    (other_keywords : gmap string value) : result OpenBadgeCredential :=
  OpenBadgeCredential_init fields.

(** *** [is_valid] *)

Definition is_valid (self : OpenBadgeCredential) (clock : Z) : result bool :=
  if truthy (revoked self) then Ok false
  else
    match expirationDate self with
    | None => Ok true
    | Some e =>
        expired ← datetime_lt e (datetime_now clock);
        if (expired : bool) then Ok false else Ok true
    end.

(** *** [model_dump(exclude_none=True)] and [to_json_ld] *)

Section JsonLd.

(** [datetime.isoformat()]. *)
Variable isoformat : datetime → string.
(** [str(v)] for a value that is neither a [str] nor a [Url]. *)
Variable str_other : value → string.
(** What the dump makes of the entries of a plain [Dict[str, Any]]. *)
Variable dump_dict : gmap string value → gmap string value.

Definition py_str (v : value) : string :=
  match v with
  | VStr s => s
  | VUrl u => u
  | _ => str_other v
  end.

(** An optional field contributes an entry only when it is not [None]. *)
Definition put_opt {A} (k : string) (f : A → value) (o : option A)
    (d : gmap string value) : gmap string value :=
  match o with
  | Some a => <[k := f a]> d
  | None => d
  end.

Definition dump_Profile (p : Profile) : gmap string value :=
  <["id" := VUrl (url_str (profile_id p))]>
    (<["type" := profile_type p]> (profile_fields p)).

Definition dump_Achievement (a : Achievement) : gmap string value :=
  <["id" := VUrl (url_str (achievement_id a))]> (achievement_fields a).

Definition dump_Evidence (e : Evidence) : gmap string value :=
  put_opt "id" (λ u, VUrl (url_str u)) (evidence_id e)
    (put_opt "name" VStr (evidence_name e)
      (put_opt "description" VStr (evidence_description e)
        (put_opt "narrative" VStr (evidence_narrative e)
          (put_opt "genre" VStr (evidence_genre e)
            {[ "type" := VStr (evidence_type e) ]})))).

Definition dump_Proof (p : Proof) : gmap string value :=
  {[ "type" := VStr (proof_type p);
     "created" := VDatetime (created p);
     "verificationMethod" := VUrl (url_str (verificationMethod p));
     "proofPurpose" := VStr (proofPurpose p);
     "proofValue" := VStr (proofValue p) ]}.

Definition dump_achievement_ref (a : achievement_ref) : value :=
  match a with
  | AchievementUrl u => VUrl (url_str u)
  | AchievementDict d => VDict (dump_dict d)
  | AchievementObj o => VDict (dump_Achievement o)
  end.

Definition dump_issuer_ref (i : issuer_ref) : value :=
  match i with
  | IssuerUrl u => VUrl (url_str u)
  | IssuerDict d => VDict (dump_dict d)
  | IssuerObj p => VDict (dump_Profile p)
  end.

Definition dump_AchievementSubject (s : AchievementSubject) : gmap string value :=
  put_opt "name" VStr (subject_name s)
    {[ "id" := VStr (subject_id s);
       "type" := VStr (subject_type s);
       "achievement" := dump_achievement_ref (achievement s) ]}.

Definition model_dump (self : OpenBadgeCredential) : gmap string value :=
  put_opt "name" VStr (credential_name self)
    (put_opt "description" VStr (credential_description self)
      (put_opt "proof" (λ p, VDict (dump_Proof p)) (proof self)
        (put_opt "expirationDate" VDatetime (expirationDate self)
          (put_opt "revoked" VBool (revoked self)
            (put_opt "revocationReason" VStr (revocationReason self)
              (put_opt "evidence" (λ l, VList ((λ e, VDict (dump_Evidence e)) <$> l))
                       (evidence self)
                {[ "id" := VUrl (url_str (credential_id self));
                   "type" := VList (VStr <$> credential_type self);
                   "issuer" := dump_issuer_ref (issuer self);
                   "issuanceDate" := VDatetime (issuanceDate self);
                   "credentialSubject" :=
                     VDict (dump_AchievementSubject (credentialSubject self)) ]})))))).

(** [d[k]] *)
Definition getitem (d : gmap string value) (k : string) : result value :=
  match d !! k with
  | Some v => Ok v
  | None => Err (KeyError k)
  end.

(** [v[k] = x] where [v] was obtained by a lookup: only a dict takes it. *)
Definition setitem (v : value) (k : string) (x : value) : result value :=
  match v with
  | VDict d => Ok (VDict (<[k := x]> d))
  | _ => Err (TypeError "object does not support item assignment")
  end.

(** [if k in data and isinstance(data[k], datetime):
       data[k] = data[k].isoformat()] *)
Definition iso_entry (k : string) (data : gmap string value) : gmap string value :=
  match data !! k with
  | Some (VDatetime d) => <[k := VStr (isoformat d)]> data
  | _ => data
  end.

(** [if 'id' in d: d['id'] = str(d['id'])] on a nested dict [d]. *)
Definition str_id (d : gmap string value) : gmap string value :=
  match d !! "id" with
  | Some v => <["id" := VStr (py_str v)]> d
  | None => d
  end.

Definition context_v3 : value :=
  VList [ VStr "https://www.w3.org/2018/credentials/v1";
          VStr "https://w3id.org/openbadges/v3" ].

(** [{"id": str(self.issuer.id), "type": self.issuer.type}] *)
Definition issuer_reference (p : Profile) : value :=
  VDict {[ "id" := VStr (url_str (profile_id p)); "type" := profile_type p ]}.

(** [{"id": str(self.credentialSubject.achievement.id), "type": "Achievement"}] *)
Definition achievement_reference (a : Achievement) : value :=
  VDict {[ "id" := VStr (url_str (achievement_id a)); "type" := VStr "Achievement" ]}.

(** [if isinstance(self.issuer, Profile): ... elif 'issuer' in data ...] *)
Definition convert_issuer (self : OpenBadgeCredential)
    (data : gmap string value) : gmap string value :=
  match issuer self with
  | IssuerObj p => <["issuer" := issuer_reference p]> data
  | _ =>
      match data !! "issuer" with
      | Some (VDict d) => <["issuer" := VDict (str_id d)]> data
      | _ => data
      end
  end.

(** [if isinstance(self.credentialSubject.achievement, Achievement): ...
     elif 'credentialSubject' in data and ...].  The dump of a model field
    is a dict; any other shape under ["credentialSubject"] is reported as
    a fault and is not reached. *)
Definition convert_achievement (self : OpenBadgeCredential)
    (data : gmap string value) : result (gmap string value) :=
  match achievement (credentialSubject self) with
  | AchievementObj a =>
      subj ← getitem data "credentialSubject";
      subj' ← setitem subj "achievement" (achievement_reference a);
      mret (<["credentialSubject" := subj']> data)
  | _ =>
      match data !! "credentialSubject" with
      | Some (VDict subj) =>
          match subj !! "achievement" with
          | Some (VDict d) =>
              mret (<["credentialSubject" :=
                        VDict (<["achievement" := VDict (str_id d)]> subj)]> data)
          | _ => mret data
          end
      | Some _ => Err (TypeError "credentialSubject is not a dict")
      | None => mret data
      end
  end.

(** [if 'credentialSubject' in data and 'id' in data['credentialSubject']
        and hasattr(...): ...] *)
Definition convert_subject_id (data : gmap string value)
  : result (gmap string value) :=
  match data !! "credentialSubject" with
  | Some (VDict subj) => mret (<["credentialSubject" := VDict (str_id subj)]> data)
  | Some _ => Err (TypeError "credentialSubject is not a dict")
  | None => mret data
  end.

Definition to_json_ld (self : OpenBadgeCredential) : result (gmap string value) :=
  let data := model_dump self in
  (* every object has [__str__], so the [hasattr] test always holds *)
  let data := str_id data in
  let data := iso_entry "issuanceDate" data in
  let data := iso_entry "expirationDate" data in
  let data := convert_issuer self data in
  data ← convert_achievement self data;
  data ← convert_subject_id data;
  mret (<["@context" := context_v3]> data).

(** The dump as it stands when the issuer and achievement blocks run. *)
Definition prepared (self : OpenBadgeCredential) : gmap string value :=
  iso_entry "expirationDate"
    (iso_entry "issuanceDate" (str_id (model_dump self))).

(** What the issuer block leaves under ["issuer"], given the dumped
    issuer. *)
Definition converted_issuer (self : OpenBadgeCredential) : value :=
  match issuer self with
  | IssuerObj p => issuer_reference p
  | IssuerUrl u => VUrl (url_str u)
  | IssuerDict d => VDict (str_id (dump_dict d))
  end.

(** What the achievement block leaves under ["achievement"]. *)
Definition converted_achievement (self : OpenBadgeCredential) : value :=
  match achievement (credentialSubject self) with
  | AchievementObj a => achievement_reference a
  | AchievementUrl u => VUrl (url_str u)
  | AchievementDict d => VDict (str_id (dump_dict d))
  end.

End JsonLd.

End Model.
Import Model.

(* ===================================================================== *)
(** ** Schema validation *)
(* ===================================================================== *)

(** Modelled from the spec: the [CredentialSchema] record
    ([{id: URI, type: schema-validator identifier}]); [credential.py]
    declares no such class and no such field. *)
Record CredentialSchema : Type := {
  schema_id : HttpUrl;
  schema_type : string;
}.

(** Modelled from the spec: [validate_schema], the raising counterpart of
    the schema check ([validate_schema(credential) -> true | raises
    UnsupportedSchemaType]); [credential.py] has no such method.  It is
    given the schema the credential was issued with, if any, and the
    allow-list of validator identifiers. *)
Definition validate_schema (supported : list string)
    (schema : option CredentialSchema) : result bool :=
  match schema with
  | None => Ok true
  | Some s =>
      if bool_decide (schema_type s ∈ supported) then Ok true
      else Err UnsupportedSchemaType
  end.

(* ===================================================================== *)
(** ** The proof subsystem *)
(* ===================================================================== *)

Module ProofSubsystem.

Abbreviation bytes := (list Byte.byte).

#[export] Instance byte_eq_dec : EqDecision Byte.byte := Byte.byte_eq_dec.

Inductive Algorithm : Type := Ed25519 | RSA.

#[export] Instance Algorithm_eq_dec : EqDecision Algorithm.
Proof. solve_decision. Defined.

Record PublicKey : Type := { pub_algorithm : Algorithm; pub_raw : bytes }.
Record PrivateKey : Type := { priv_algorithm : Algorithm; priv_raw : bytes }.
Record KeyPair : Type := { private_key : PrivateKey; public_key : PublicKey }.

(** References to credential objects. *)
Abbreviation ref := positive.

Section Subsystem.

(** The content of a credential (every field but [proof]) is opaque to the
    proof subsystem. *)
Variable Content : Type.

(** Modelled from the spec: a credential as the proof subsystem sees it,
    a content view and at most one proof. *)
Record Credential : Type := {
  content : Content;
  cred_proof : option Proof;
}.

(** The object store: which credential object each live reference
    designates. *)
Abbreviation store := (gmap ref Credential).

(** Collaborators of the subsystem: the canonicaliser, the signature
    primitive of the key's algorithm, the text encoding of signatures and
    the table of supported proof suites with the algorithm each stands
    for. *)
Variable canonicalize : Content → bytes.
Variable sig_sign : PrivateKey → bytes → bytes.
Variable sig_verify : PublicKey → bytes → bytes → bool.
Variable encode_signature : bytes → string.
Variable decode_signature : string → option bytes.
Variable suite_algorithm : string → option Algorithm.

(** Modelled from the spec: the proof record that [create_proof] builds
    over a content (canonicalise, sign, encode). *)
Definition proof_over (c : Content) (private_key : PrivateKey)
    (verification_method : HttpUrl) (proof_type : string)
    (proof_purpose : option string) (created_at : datetime) : Proof :=
  let canonical := canonicalize c in
  let signature := sig_sign private_key canonical in
  {| Model.proof_type := proof_type;
     created := created_at;
     verificationMethod := verification_method;
     proofPurpose := default "assertionMethod" proof_purpose;
     proofValue := encode_signature signature |}.

(** Modelled from the spec: [create_proof] of the signing module. *)
Definition create_proof (c : Content) (private_key : PrivateKey)
    (verification_method : HttpUrl) (proof_type : string)
    (proof_purpose : option string) (created_at : datetime) : result Proof :=
  match suite_algorithm proof_type with
  | None => Err UnsupportedProofType
  | Some _ =>
      Ok (proof_over c private_key verification_method proof_type
            proof_purpose created_at)
  end.

(** Modelled from the spec: [verify_proof] of the verification module.  A
    proof value that does not decode, and a suite that does not stand for
    the algorithm of the key, both answer [false]. *)
Definition verify_proof (c : Content) (p : Proof) (public_key : PublicKey) : bool :=
  let canonical := canonicalize c in
  match decode_signature (proofValue p) with
  | None => false
  | Some signature =>
      match suite_algorithm (Model.proof_type p) with
      | Some a =>
          if decide (a = pub_algorithm public_key)
          then sig_verify public_key canonical signature
          else false
      | None => false
      end
  end.

(** Operations run against the store and either return or raise; the
    store after the call is reported in both cases. *)
Definition M (A : Type) : Type := store → result A * store.

Definition ret {A} (a : A) : M A := λ σ, (Ok a, σ).
Definition raise {A} (e : exn) : M A := λ σ, (Err e, σ).
Definition bind {A B} (m : M A) (k : A → M B) : M B := λ σ,
  match m σ with
  | (Ok a, σ') => k a σ'
  | (Err e, σ') => (Err e, σ')
  end.

Definition deref (r : ref) : M Credential := λ σ,
  match σ !! r with
  | Some c => (Ok c, σ)
  | None => (Err InvalidReference, σ)
  end.

Definition alloc (c : Credential) : M ref := λ σ,
  let r := fresh (dom σ) in (Ok r, <[r := c]> σ).

Definition assign (r : ref) (c : Credential) : M unit := λ σ,
  (Ok tt, <[r := c]> σ).

(** Modelled from the spec: [sign_credential] of the signing module.  The
    signed credential is a new object; the argument is only read. *)
Definition sign_credential (credential : ref) (private_key : PrivateKey)
    (verification_method : HttpUrl) (proof_type : string)
    (created_at : datetime) : M ref :=
  bind (deref credential) (λ c,
    match cred_proof c with
    | Some _ => raise DuplicateProof
    | None =>
        match create_proof (content c) private_key verification_method
                proof_type None created_at with
        | Err e => raise e
        | Ok p => alloc {| content := content c; cred_proof := Some p |}
        end
    end).

(** Modelled from the spec: [verify_credential] of the verification
    module. *)
Definition verify_credential (credential : ref) (public_key : PublicKey) : M bool :=
  bind (deref credential) (λ c,
    match cred_proof c with
    | None => raise MissingProof
    | Some p => ret (verify_proof (content c) p public_key)
    end).

(** Modelled from the spec: the methods [sign] and [verify_signature] of
    the credential, which hand over to the two functions above; [sign]
    defaults to the Ed25519 suite. *)
Definition sign (self : ref) (private_key : PrivateKey)
    (verification_method : HttpUrl) (proof_type : option string)
    (created_at : datetime) : M ref :=
  sign_credential self private_key verification_method
    (default "Ed25519Signature2020" proof_type) created_at.

Definition verify_signature (self : ref) (public_key : PublicKey) : M bool :=
  verify_credential self public_key.

(** [self.model_copy(deep=True)]: a new object with the same fields. *)
Definition model_copy_deep (self : ref) : M ref :=
  bind (deref self) alloc.

(** Assignment to a content field, such as
    [c.credentialSubject.id = "did:example:hacker"]: the object is updated
    in place, its proof stays. *)
Definition set_content_field (self : ref) (update : Content → Content) : M unit :=
  bind (deref self) (λ c,
    assign self {| content := update (content c); cred_proof := cred_proof c |}).

(** The round trip of the verification tests: sign, then verify the
    signed credential. *)
Definition sign_then_verify (credential : ref) (kp : KeyPair)
    (verification_method : HttpUrl) (proof_type : string)
    (created_at : datetime) : M bool :=
  bind (sign_credential credential (private_key kp) verification_method
          proof_type created_at)
       (λ signed, verify_credential signed (public_key kp)).

(** The same through the methods of the credential. *)
Definition sign_then_verify_signature (credential : ref) (kp : KeyPair)
    (verification_method : HttpUrl) (proof_type : option string)
    (created_at : datetime) : M bool :=
  bind (sign credential (private_key kp) verification_method
          proof_type created_at)
       (λ signed, verify_signature signed (public_key kp)).

(** The tampering scenario of the tests: sign, deep-copy the signed
    credential, change a content field of the copy, then verify the copy
    and the original.  Returns the two answers in that order. *)
Definition tamper_scenario (credential : ref) (kp : KeyPair)
    (verification_method : HttpUrl) (proof_type : string)
    (created_at : datetime) (update : Content → Content) : M (bool * bool) :=
  bind (sign_credential credential (private_key kp) verification_method
          proof_type created_at) (λ signed,
  bind (model_copy_deep signed) (λ tampered,
  bind (set_content_field tampered update) (λ _,
  bind (verify_credential tampered (public_key kp)) (λ tampered_ok,
  bind (verify_credential signed (public_key kp)) (λ signed_ok,
  ret (tampered_ok, signed_ok)))))).

End Subsystem.

Arguments content {Content} _.
Arguments cred_proof {Content} _.
Arguments ret {Content A} _ _.
Arguments raise {Content A} _ _.
Arguments bind {Content A B} _ _ _.
Arguments deref {Content} _ _.
Arguments alloc {Content} _ _.
Arguments assign {Content} _ _ _.
Arguments model_copy_deep {Content} _ _.
Arguments set_content_field {Content} _ _ _.

(** How an [OpenBadgeCredential] presents itself to the subsystem: its
    content view is the credential with the proof field emptied. *)
Definition strip_proof (c : OpenBadgeCredential) : OpenBadgeCredential :=
  {| credential_id := credential_id c;
     credential_type := credential_type c;
     issuer := issuer c;
     issuanceDate := issuanceDate c;
     credentialSubject := credentialSubject c;
     credential_name := credential_name c;
     credential_description := credential_description c;
     proof := None;
     expirationDate := expirationDate c;
     revoked := revoked c;
     revocationReason := revocationReason c;
     evidence := evidence c |}.

Definition view (c : OpenBadgeCredential) : Credential OpenBadgeCredential :=
  {| content := strip_proof c; cred_proof := proof c |}.

End ProofSubsystem.

(* ===================================================================== *)
(** ** A small instance of the collaborators *)
(* ===================================================================== *)

(** A keyed tag in place of a real signature, a one-letter prefix in place
    of multibase, text as content: enough to run the subsystem on concrete
    data and to see that the assumptions made about the collaborators
    below can be met together. *)
Module Toy.
Import ProofSubsystem.

Definition canonicalize (c : string) : bytes :=
  Stdlib.Strings.String.list_byte_of_string c.

Definition keygen (a : Algorithm) (entropy : bytes) : KeyPair :=
  {| private_key := {| priv_algorithm := a; priv_raw := entropy |};
     public_key := {| pub_algorithm := a; pub_raw := entropy |} |}.

Definition sig_sign (k : PrivateKey) (m : bytes) : bytes := (priv_raw k ++ m)%list.

Definition sig_verify (k : PublicKey) (m s : bytes) : bool :=
  bool_decide (s = (pub_raw k ++ m)%list).

Definition encode_signature (s : bytes) : string :=
  String "z"%char (Stdlib.Strings.String.string_of_list_byte s).

Definition decode_signature (t : string) : option bytes :=
  match t with
  | String c rest =>
      if Ascii.eqb c "z"%char
      then Some (Stdlib.Strings.String.list_byte_of_string rest)
      else None
  | EmptyString => None
  end.

Definition suite_algorithm (proof_type : string) : option Algorithm :=
  if bool_decide (proof_type = "Ed25519Signature2020") then Some Ed25519
  else if bool_decide (proof_type = "RsaSignature2018") then Some RSA
  else None.

Definition entropy1 : bytes := [Byte.x01; Byte.x02; Byte.x03].
Definition keypair1 : KeyPair := keygen Ed25519 entropy1.
Definition key_url : HttpUrl := Url "https://example.org/issuers/1/keys/1".

Definition unsigned : Credential string :=
  {| content := "did:example:recipient"; cred_proof := None |}.

Definition some_proof : Proof :=
  {| proof_type := "Ed25519Signature2020";
     created := Naive 0;
     verificationMethod := key_url;
     proofPurpose := "assertionMethod";
     proofValue := "invalid_signature" |}.

Definition already_signed : Credential string :=
  {| content := "did:example:recipient"; cred_proof := Some some_proof |}.

(** A store with the unsigned credential at 1 and the signed one at 2. *)
Definition store1 : gmap ref (Credential string) :=
  <[1%positive := unsigned]> (<[2%positive := already_signed]> ∅).

Definition hack (c : string) : string := "did:example:hacker".

End Toy.

(* ===================================================================== *)
(** ** A signature of fixed size *)
(* ===================================================================== *)

(** Signatures of real schemes have a fixed size (64 bytes for Ed25519,
    the modulus size for RSA).  The smallest such primitive: the key
    material followed by one byte of the message. *)
Module FixedSize.
Import ProofSubsystem.

Definition first_byte (m : bytes) : Byte.byte := default Byte.x00 (head m).

Definition sig_sign (k : PrivateKey) (m : bytes) : bytes :=
  (priv_raw k ++ [first_byte m])%list.

Definition sig_verify (k : PublicKey) (m s : bytes) : bool :=
  bool_decide (s = (pub_raw k ++ [first_byte m])%list).

(** Every byte, and every byte string of a given length. *)
Definition all_bytes : list Byte.byte :=
  omap Byte.of_N (N.of_nat <$> seq 0 256).

Fixpoint words (n : nat) : list bytes :=
  match n with
  | O => [[]]
  | S k => b ← all_bytes; (cons b) <$> words k
  end.

End FixedSize.

(* ===================================================================== *)
(** ** Credentials of the test suite *)
(* ===================================================================== *)

Module Fixtures.

(** Midnight of the day with proleptic ordinal [day], in microseconds. *)
Definition midnight (day : Z) : Z := (day - 1) * 86400000000.

Definition day_2020_01_01 : Z := 737425.
Definition day_2025_01_01 : Z := 739252.
Definition day_2030_01_01 : Z := 741078.

Definition clock_2025 : Z := midnight day_2025_01_01.

(** The credential of [test_credential_is_valid]: references only, no
    optional field. *)
Definition cred_minimal : OpenBadgeCredential :=
  {| credential_id := Url "https://example.org/credentials/1";
     credential_type := ["VerifiableCredential"; "OpenBadgeCredential"];
     issuer := IssuerUrl (Url "https://example.org/issuers/1");
     issuanceDate := Naive clock_2025;
     credentialSubject :=
       {| subject_id := "did:example:recipient123";
          subject_type := "AchievementSubject";
          achievement := AchievementUrl (Url "https://example.org/badges/1");
          subject_name := None |};
     credential_name := None;
     credential_description := None;
     proof := None;
     expirationDate := None;
     revoked := None;
     revocationReason := None;
     evidence := None |}.

Definition with_expirationDate (e : option datetime) (c : OpenBadgeCredential)
  : OpenBadgeCredential :=
  {| credential_id := credential_id c;
     credential_type := credential_type c;
     issuer := issuer c;
     issuanceDate := issuanceDate c;
     credentialSubject := credentialSubject c;
     credential_name := credential_name c;
     credential_description := credential_description c;
     proof := proof c;
     expirationDate := e;
     revoked := revoked c;
     revocationReason := revocationReason c;
     evidence := evidence c |}.

(** Expired since 2020-01-01T00:00:00+00:00, an aware reading as produced
    by [datetime.fromisoformat] or by parsing a JSON date ending in Z. *)
Definition cred_expired_aware : OpenBadgeCredential :=
  with_expirationDate (Some (Aware (midnight day_2020_01_01) 0)) cred_minimal.

(** Expires on 2030-01-01T00:00:00+00:00. *)
Definition cred_future_aware : OpenBadgeCredential :=
  with_expirationDate (Some (Aware (midnight day_2030_01_01) 0)) cred_minimal.

(** What [test_schema_validation_unsupported_type] passes to the
    constructor next to the fields of [cred_minimal]: a keyword
    [credentialSchema], which names no field of the class. *)
Definition unsupported_schema : CredentialSchema :=
  {| schema_id := Url "https://w3id.org/vc/status-list/2021/v1";
     schema_type := "UnsupportedSchemaType" |}.

Definition schema_keyword : gmap string value :=
  {[ "credentialSchema" :=
       VDict {[ "id" := VUrl "https://w3id.org/vc/status-list/2021/v1";
                "type" := VStr "UnsupportedSchemaType" ]} ]}.

(** The credential of [test_credential_with_object_references], as given
    to the constructor: issuer and achievement are plain dicts. *)
Definition dict_issuer : gmap string value :=
  {[ "id" := VStr "https://example.org/issuers/1"; "type" := VStr "Profile" ]}.

Definition fields_dict_issuer : OpenBadgeCredential :=
  {| credential_id := Url "https://example.org/credentials/1";
     credential_type := ["VerifiableCredential"; "OpenBadgeCredential"];
     issuer := IssuerDict dict_issuer;
     issuanceDate := Naive clock_2025;
     credentialSubject :=
       {| subject_id := "did:example:recipient123";
          subject_type := "AchievementSubject";
          achievement :=
            AchievementDict {[ "id" := VStr "https://example.org/badges/1";
                               "type" := VStr "Achievement" ]};
          subject_name := None |};
     credential_name := None;
     credential_description := None;
     proof := None;
     expirationDate := None;
     revoked := None;
     revocationReason := None;
     evidence := None |}.

(** The expired credential of [test_credential_is_valid]: the expiration
    date is a naive reading one day before the clock. *)
Definition cred_expired_naive : OpenBadgeCredential :=
  with_expirationDate (Some (Naive (clock_2025 - 86400000000))) cred_minimal.

(** A credential that expires at the very instant of the clock. *)
Definition cred_expires_now : OpenBadgeCredential :=
  with_expirationDate (Some (Naive clock_2025)) cred_minimal.

(** The validator identifier the schema tests accept. *)
Definition supported_schema_types : list string := ["JsonSchemaValidator2019"].

End Fixtures.
Import Fixtures.

(* ===================================================================== *)
(** ** Validity *)
(* ===================================================================== *)

Section Validity.

Implicit Types (c : OpenBadgeCredential) (clock : Z).

Lemma is_valid_revoked c clock :
  revoked c = Some true → is_valid c clock = Ok false.
Proof. intros H. unfold is_valid. by rewrite H. Qed.

Lemma is_valid_no_expiration c clock :
  truthy (revoked c) = false → expirationDate c = None →
  is_valid c clock = Ok true.
Proof. intros Hr He. unfold is_valid. by rewrite Hr, He. Qed.

Lemma is_valid_naive_expiration c clock e :
  truthy (revoked c) = false → expirationDate c = Some (Naive e) →
  is_valid c clock = Ok (negb (Z.ltb e clock)).
Proof.
  intros Hr He. unfold is_valid. rewrite Hr, He. simpl.
  by destruct (Z.ltb e clock).
Qed.

Lemma is_valid_naive_expired c clock e :
  truthy (revoked c) = false → expirationDate c = Some (Naive e) →
  (e < clock)%Z → is_valid c clock = Ok false.
Proof.
  intros Hr He Hlt. rewrite (is_valid_naive_expiration c clock e Hr He).
  by rewrite (proj2 (Z.ltb_lt e clock) Hlt).
Qed.

Lemma is_valid_naive_current c clock e :
  truthy (revoked c) = false → expirationDate c = Some (Naive e) →
  (clock ≤ e)%Z → is_valid c clock = Ok true.
Proof.
  intros Hr He Hle. rewrite (is_valid_naive_expiration c clock e Hr He).
  by rewrite (proj2 (Z.ltb_ge e clock) Hle).
Qed.

Lemma is_valid_aware_expiration c clock w off :
  truthy (revoked c) = false → expirationDate c = Some (Aware w off) →
  is_valid c clock =
    Err (TypeError "can't compare offset-naive and offset-aware datetimes").
Proof. intros Hr He. unfold is_valid. by rewrite Hr, He. Qed.

(** C6. [is_valid] answers [False] for a revoked credential whatever its
    dates, and [True] or [False] according to a naive expiration date; but
    for an aware expiration date, past or future, the comparison with
    [datetime.now()] raises [TypeError] instead of returning a boolean. *)
Theorem is_valid_aware_expiration_raises :
  is_valid cred_expired_aware clock_2025 =
    Err (TypeError "can't compare offset-naive and offset-aware datetimes")
  ∧ is_valid cred_future_aware clock_2025 =
    Err (TypeError "can't compare offset-naive and offset-aware datetimes").
Proof. split; reflexivity. Qed.




End Validity.

(* ===================================================================== *)
(** ** JSON-LD emission *)
(* ===================================================================== *)

Section JsonLdFacts.

Variable isoformat : datetime → string.
Variable str_other : value → string.
Variable dump_dict : gmap string value → gmap string value.

Implicit Types (self : OpenBadgeCredential) (data subj : gmap string value).

Lemma put_opt_lookup_ne {A} k k' (f : A → value) o data :
  k ≠ k' → put_opt k f o data !! k' = data !! k'.
Proof. intros Hne. destruct o; simpl; [by rewrite lookup_insert_ne | done]. Qed.

Lemma str_id_lookup_ne data k :
  k ≠ "id" → str_id str_other data !! k = data !! k.
Proof.
  intros Hne. unfold str_id. destruct (data !! "id"); [|done].
  by rewrite lookup_insert_ne.
Qed.

Lemma iso_entry_lookup_ne data k k' :
  k ≠ k' → iso_entry isoformat k data !! k' = data !! k'.
Proof.
  intros Hne. unfold iso_entry.
  destruct (data !! k) as [[]|]; try done. by rewrite lookup_insert_ne.
Qed.

Lemma model_dump_subject self :
  model_dump dump_dict self !! "credentialSubject"
  = Some (VDict (dump_AchievementSubject dump_dict (credentialSubject self))).
Proof. unfold model_dump. by rewrite !put_opt_lookup_ne. Qed.

Lemma model_dump_issuer self :
  model_dump dump_dict self !! "issuer" = Some (dump_issuer_ref dump_dict (issuer self)).
Proof. unfold model_dump. by rewrite !put_opt_lookup_ne. Qed.

Lemma dump_subject_achievement (s : AchievementSubject) :
  dump_AchievementSubject dump_dict s !! "achievement"
  = Some (dump_achievement_ref dump_dict (achievement s)).
Proof. unfold dump_AchievementSubject. by rewrite put_opt_lookup_ne. Qed.

Lemma prepared_subject self :
  prepared isoformat str_other dump_dict self !! "credentialSubject"
  = Some (VDict (dump_AchievementSubject dump_dict (credentialSubject self))).
Proof.
  unfold prepared.
  rewrite !iso_entry_lookup_ne, str_id_lookup_ne by done.
  apply model_dump_subject.
Qed.

Lemma prepared_issuer self :
  prepared isoformat str_other dump_dict self !! "issuer" = Some (dump_issuer_ref dump_dict (issuer self)).
Proof.
  unfold prepared.
  rewrite !iso_entry_lookup_ne, str_id_lookup_ne by done.
  apply model_dump_issuer.
Qed.

Lemma convert_issuer_lookup_ne self data k :
  k ≠ "issuer" → convert_issuer str_other self data !! k = data !! k.
Proof.
  intros Hne. unfold convert_issuer.
  destruct (issuer self); try by rewrite lookup_insert_ne.
  all: destruct (data !! "issuer") as [[]|]; try done; by rewrite lookup_insert_ne.
Qed.

Lemma convert_issuer_issuer self data :
  data !! "issuer" = Some (dump_issuer_ref dump_dict (issuer self)) →
  convert_issuer str_other self data !! "issuer"
  = Some (converted_issuer str_other dump_dict self).
Proof.
  intros Hi. unfold convert_issuer, converted_issuer.
  destruct (issuer self) as [u|d|p]; simpl in Hi.
  - by rewrite Hi.
  - rewrite Hi. apply lookup_insert_eq.
  - apply lookup_insert_eq.
Qed.

Lemma convert_achievement_Ok self data subj :
  data !! "credentialSubject" = Some (VDict subj) →
  subj !! "achievement"
    = Some (dump_achievement_ref dump_dict (achievement (credentialSubject self))) →
  ∃ subj', convert_achievement str_other self data
             = Ok (<["credentialSubject" := VDict subj']> data)
         ∧ subj' !! "achievement"
           = Some (converted_achievement str_other dump_dict self).
Proof.
  intros Hs Ha. unfold convert_achievement, converted_achievement, getitem.
  destruct (achievement (credentialSubject self)) as [u|d|a];
    rewrite Hs; simpl in *.
  - exists subj. rewrite Ha. split; [by rewrite insert_id | done].
  - rewrite Ha. eexists; split; [reflexivity | apply lookup_insert_eq].
  - eexists; split; [reflexivity | apply lookup_insert_eq].
Qed.

Lemma convert_subject_id_Ok data subj :
  data !! "credentialSubject" = Some (VDict subj) →
  convert_subject_id str_other data
  = Ok (<["credentialSubject" := VDict (str_id str_other subj)]> data).
Proof. intros Hs. unfold convert_subject_id. by rewrite Hs. Qed.

(** [to_json_ld] returns, and its result is the prepared dump with the
    issuer converted, a subject dict put under ["credentialSubject"] and
    the context added. *)
Lemma to_json_ld_returns self :
  ∃ subj,
    to_json_ld isoformat str_other dump_dict self
    = Ok (<["@context" := context_v3]>
           (<["credentialSubject" := VDict subj]>
             (convert_issuer str_other self
                (prepared isoformat str_other dump_dict self))))
    ∧ subj !! "achievement"
      = Some (converted_achievement str_other dump_dict self).
Proof.
  unfold to_json_ld. fold (prepared isoformat str_other dump_dict self).
  destruct (convert_achievement_Ok self
              (convert_issuer str_other self
                 (prepared isoformat str_other dump_dict self))
              (dump_AchievementSubject dump_dict (credentialSubject self)))
    as (subj' & -> & Hach).
  { rewrite convert_issuer_lookup_ne by done. apply prepared_subject. }
  { apply dump_subject_achievement. }
  simpl. rewrite (convert_subject_id_Ok _ subj') by apply lookup_insert_eq.
  simpl. exists (str_id str_other subj'). split.
  - by rewrite insert_insert_eq.
  - by rewrite str_id_lookup_ne.
Qed.

(** C8. [to_json_ld] always returns a dict whose ["@context"] entry is the
    list of the two context URLs, whatever the credential holds. *)
Theorem to_json_ld_context self :
  ∃ data, to_json_ld isoformat str_other dump_dict self = Ok data
        ∧ data !! "@context"
          = Some (VList [ VStr "https://www.w3.org/2018/credentials/v1";
                          VStr "https://w3id.org/openbadges/v3" ]).
Proof.
  destruct (to_json_ld_returns self) as (subj & -> & _).
  eexists; split; [reflexivity | apply lookup_insert_eq].
Qed.

(** C9. In the output of [to_json_ld] an issuer held as a [Profile] object
    is replaced by [{"id": str(issuer.id), "type": issuer.type}] and an
    achievement held as an [Achievement] object by [{"id":
    str(achievement.id), "type": "Achievement"}]; an issuer or achievement
    held as a bare URL is left as that URL (and one held as a plain dict
    stays a dict, with its ["id"] turned into a string). *)
Theorem to_json_ld_references self :
  ∃ data subj,
    to_json_ld isoformat str_other dump_dict self = Ok data
    ∧ data !! "credentialSubject" = Some (VDict subj)
    ∧ data !! "issuer" =
        Some match issuer self with
             | IssuerObj p =>
                 VDict {[ "id" := VStr (url_str (profile_id p));
                          "type" := profile_type p ]}
             | IssuerUrl u => VUrl (url_str u)
             | IssuerDict d => VDict (str_id str_other (dump_dict d))
             end
    ∧ subj !! "achievement" =
        Some match achievement (credentialSubject self) with
             | AchievementObj a =>
                 VDict {[ "id" := VStr (url_str (achievement_id a));
                          "type" := VStr "Achievement" ]}
             | AchievementUrl u => VUrl (url_str u)
             | AchievementDict d => VDict (str_id str_other (dump_dict d))
             end.
Proof.
  destruct (to_json_ld_returns self) as (subj & -> & Hach).
  eexists _, subj. split; [reflexivity|]. split; [|split].
  - rewrite lookup_insert_ne by done. apply lookup_insert_eq.
  - rewrite !lookup_insert_ne by done.
    rewrite convert_issuer_issuer by apply prepared_issuer.
    unfold converted_issuer. by destruct (issuer self).
  - rewrite Hach. unfold converted_achievement.
    by destruct (achievement (credentialSubject self)).
Qed.

End JsonLdFacts.

(* ===================================================================== *)
(** ** Construction *)
(* ===================================================================== *)

Section Construction.

(** C10. Construction of a credential whose type list is valid succeeds;
    an issuer given as a dict tagged ['Profile'] with an ['id'] and no
    ['name'] is stored with the entry ['name': "Unnamed Issuer"] added,
    while an issuer given as a URL, as a [Profile] object or as a dict
    that has a ['name'] is stored as given. *)
Theorem init_issuer_default_name (fields : OpenBadgeCredential) :
  "VerifiableCredential" ∈ credential_type fields →
  "OpenBadgeCredential" ∈ credential_type fields →
  ∃ c, OpenBadgeCredential_init fields = Ok c
     ∧ (∀ d, issuer fields = IssuerDict d →
             d !! "type" = Some (VStr "Profile") →
             is_Some (d !! "id") → d !! "name" = None →
             issuer c = IssuerDict (<["name" := VStr "Unnamed Issuer"]> d))
     ∧ (∀ u, issuer fields = IssuerUrl u → issuer c = IssuerUrl u)
     ∧ (∀ p, issuer fields = IssuerObj p → issuer c = IssuerObj p)
     ∧ (∀ d, issuer fields = IssuerDict d → is_Some (d !! "name") →
             issuer c = IssuerDict d).
Proof.
  intros Hvc Hobc. unfold OpenBadgeCredential_init, validate_type.
  rewrite !bool_decide_eq_true_2 by done. simpl.
  eexists; split; [reflexivity|]. simpl. repeat split.
  - intros d -> Ht [i Hid] Hn. unfold validate_issuer, has_key.
    by rewrite Ht, Hid, Hn.
  - by intros u ->.
  - by intros p ->.
  - intros d -> [n Hn]. unfold validate_issuer, has_key.
    rewrite Hn. simpl. by rewrite !andb_false_r.
Qed.

Lemma init_issuer_default_name_witness :
  ∃ c, OpenBadgeCredential_init fields_dict_issuer = Ok c
     ∧ issuer c = IssuerDict (<["name" := VStr "Unnamed Issuer"]> dict_issuer).
Proof.
  destruct (init_issuer_default_name fields_dict_issuer) as (c & Hc & Hd & _).
  - apply (bool_decide_unpack _). reflexivity.
  - apply (bool_decide_unpack _). reflexivity.
  - exists c. split; [exact Hc|].
    apply Hd; [reflexivity | reflexivity | by eexists | reflexivity].
Defined.

End Construction.

(* ===================================================================== *)
(** ** The assumptions are met by the small instance *)
(* ===================================================================== *)

Section Instance.
Import ProofSubsystem.

Lemma toy_keygen_algorithm a e :
  pub_algorithm (public_key (Toy.keygen a e)) = a.
Proof. reflexivity. Qed.

Lemma toy_sig_correct a e m :
  Toy.sig_verify (public_key (Toy.keygen a e)) m
    (Toy.sig_sign (private_key (Toy.keygen a e)) m) = true.
Proof. unfold Toy.sig_verify, Toy.sig_sign. simpl. by apply bool_decide_eq_true_2. Qed.

Lemma toy_signature_codec s :
  Toy.decode_signature (Toy.encode_signature s) = Some s.
Proof.
  unfold Toy.decode_signature, Toy.encode_signature. simpl.
  by rewrite Stdlib.Strings.String.list_byte_of_string_of_list_byte.
Qed.

Lemma fixed_size_sig_correct a e m :
  FixedSize.sig_verify (public_key (Toy.keygen a e)) m
    (FixedSize.sig_sign (private_key (Toy.keygen a e)) m) = true.
Proof.
  unfold FixedSize.sig_verify, FixedSize.sig_sign. simpl.
  by apply bool_decide_eq_true_2.
Qed.

Lemma fixed_size_sig_length a e m :
  length (FixedSize.sig_sign (private_key (Toy.keygen a e)) m) = S (length e).
Proof. unfold FixedSize.sig_sign. simpl. rewrite length_app. simpl. lia. Qed.

End Instance.


(* ===================================================================== *)
(** ** Counting byte strings *)
(* ===================================================================== *)

Section Counting.
Import ProofSubsystem.

Lemma all_bytes_complete (b : Byte.byte) : b ∈ FixedSize.all_bytes.
Proof. destruct b; by apply (bool_decide_unpack _). Qed.

Lemma words_complete (l : bytes) : l ∈ FixedSize.words (length l).
Proof.
  induction l as [|b l IH]; cbn [length FixedSize.words].
  - apply list_elem_of_singleton. reflexivity.
  - apply list_elem_of_bind. exists b. split; [|apply all_bytes_complete].
    apply list_elem_of_fmap. by exists l.
Qed.

(** Along a list without repetition a function either has no repetition
    or takes one value at two places. *)
Lemma collision_or_NoDup {A B} `{EqDecision B} (f : A → B) (l : list A) :
  NoDup l →
  NoDup (f <$> l) ∨ ∃ x y, x ∈ l ∧ y ∈ l ∧ x ≠ y ∧ f x = f y.
Proof.
  induction 1 as [|x l Hx Hl IH]; simpl.
  - left. constructor.
  - destruct IH as [IH|(y & z & Hy & Hz & Hne & Heq)].
    + destruct (decide (f x ∈ f <$> l)) as [Hin|Hin].
      * right. apply list_elem_of_fmap in Hin as (y & Heq & Hy).
        exists x, y. split; [by left|]. split; [by right|].
        split; [|done]. intros ->. done.
      * left. by constructor.
    + right. exists y, z. split; [by right|]. split; [by right|]. done.
Qed.

(** Pigeonhole: a sequence whose values all lie in a finite list takes
    one value at two indices. *)
Lemma pigeonhole {B} `{EqDecision B} (f : nat → B) (L : list B) :
  (∀ i, f i ∈ L) → ∃ i j, i ≠ j ∧ f i = f j.
Proof.
  intros Hin.
  destruct (collision_or_NoDup f (seq 0 (S (length L))))
    as [Hnd|(i & j & _ & _ & Hne & Heq)]; [apply NoDup_seq | | eauto].
  exfalso.
  assert (f <$> seq 0 (S (length L)) ⊆+ L) as Hsub.
  { apply NoDup_submseteq; [done|]. intros x Hx.
    apply list_elem_of_fmap in Hx as (i & -> & _). apply Hin. }
  apply submseteq_length in Hsub.
  rewrite length_fmap, length_seq in Hsub. lia.
Qed.

End Counting.

(* ===================================================================== *)
(** ** The proof subsystem: signing and verification *)
(* ===================================================================== *)

Section ProofFacts.
Import ProofSubsystem.

Variable Content : Type.
Variable canonicalize : Content → bytes.
Variable sig_sign : PrivateKey → bytes → bytes.
Variable sig_verify : PublicKey → bytes → bytes → bool.
Variable encode_signature : bytes → string.
Variable decode_signature : string → option bytes.
Variable suite_algorithm : string → option Algorithm.
(** Key generation from entropy, for either algorithm. *)
Variable keygen : Algorithm → bytes → KeyPair.

(** Assumptions on the collaborators. *)

(** A generated public key is tagged with the algorithm asked for. *)
Hypothesis keygen_algorithm :
  ∀ a e, pub_algorithm (public_key (keygen a e)) = a.

(** Correctness of the signature primitive on generated pairs. *)
Hypothesis sig_correct :
  ∀ a e m,
    sig_verify (public_key (keygen a e)) m
      (sig_sign (private_key (keygen a e)) m) = true.

(** Decoding inverts encoding. *)
Hypothesis signature_codec :
  ∀ s, decode_signature (encode_signature s) = Some s.

Local Abbreviation store := (gmap ref (Credential Content)).
Local Abbreviation sign_credential :=
  (sign_credential Content canonicalize sig_sign encode_signature suite_algorithm).
Local Abbreviation sign :=
  (sign Content canonicalize sig_sign encode_signature suite_algorithm).
Local Abbreviation verify_proof :=
  (verify_proof Content canonicalize sig_verify decode_signature suite_algorithm).
Local Abbreviation verify_credential :=
  (verify_credential Content canonicalize sig_verify decode_signature suite_algorithm).
Local Abbreviation verify_signature :=
  (verify_signature Content canonicalize sig_verify decode_signature suite_algorithm).
Local Abbreviation proof_over :=
  (proof_over Content canonicalize sig_sign encode_signature).
Local Abbreviation sign_then_verify :=
  (sign_then_verify Content canonicalize sig_sign sig_verify encode_signature
     decode_signature suite_algorithm).
Local Abbreviation sign_then_verify_signature :=
  (sign_then_verify_signature Content canonicalize sig_sign sig_verify
     encode_signature decode_signature suite_algorithm).
Local Abbreviation tamper_scenario :=
  (tamper_scenario Content canonicalize sig_sign sig_verify encode_signature
     decode_signature suite_algorithm).

Implicit Types (σ : store) (r : ref) (c : Credential Content).

(** The view of an [OpenBadgeCredential] loses nothing: the credential is
    determined by its content view and its proof. *)
Lemma view_inj (x y : OpenBadgeCredential) : view x = view y → x = y.
Proof.
  destruct x, y. unfold view, strip_proof. simpl.
  intros [= -> -> -> -> -> -> -> -> -> -> -> ->]. reflexivity.
Qed.

Lemma deref_Some σ r c : σ !! r = Some c → deref r σ = (Ok c, σ).
Proof. intros H. unfold deref. by rewrite H. Qed.

Lemma fresh_ref_ne σ r c : σ !! r = Some c → fresh (dom σ) ≠ r.
Proof.
  intros H Heq. apply (is_fresh (dom σ)). rewrite Heq.
  apply elem_of_dom. eauto.
Qed.

Lemma fresh_ref_None σ : σ !! fresh (dom σ) = None.
Proof. apply not_elem_of_dom, is_fresh. Qed.

(** Signing an unsigned credential with a supported suite allocates the
    signed credential at a fresh reference. *)
Lemma sign_credential_unsigned σ r c k vm ty t a :
  σ !! r = Some c → cred_proof c = None → suite_algorithm ty = Some a →
  sign_credential r k vm ty t σ
  = (Ok (fresh (dom σ)),
     <[fresh (dom σ) := {| content := content c;
                           cred_proof := Some (proof_over (content c) k vm ty None t) |}]> σ).
Proof.
  intros Hr Hp Hs. unfold ProofSubsystem.sign_credential, bind.
  rewrite (deref_Some _ _ _ Hr), Hp.
  unfold create_proof. by rewrite Hs.
Qed.

Lemma sign_credential_signed σ r c p k vm ty t :
  σ !! r = Some c → cred_proof c = Some p →
  sign_credential r k vm ty t σ = (Err DuplicateProof, σ).
Proof.
  intros Hr Hp. unfold ProofSubsystem.sign_credential, bind.
  by rewrite (deref_Some _ _ _ Hr), Hp.
Qed.

Lemma sign_credential_unsupported σ r c k vm ty t :
  σ !! r = Some c → cred_proof c = None → suite_algorithm ty = None →
  sign_credential r k vm ty t σ = (Err UnsupportedProofType, σ).
Proof.
  intros Hr Hp Hs. unfold ProofSubsystem.sign_credential, bind.
  rewrite (deref_Some _ _ _ Hr), Hp.
  unfold create_proof. by rewrite Hs.
Qed.

Lemma verify_credential_signed σ r c p k :
  σ !! r = Some c → cred_proof c = Some p →
  verify_credential r k σ = (Ok (verify_proof (content c) p k), σ).
Proof.
  intros Hr Hp. unfold ProofSubsystem.verify_credential, bind.
  by rewrite (deref_Some _ _ _ Hr), Hp.
Qed.

Lemma verify_credential_unsigned σ r c k :
  σ !! r = Some c → cred_proof c = None →
  verify_credential r k σ = (Err MissingProof, σ).
Proof.
  intros Hr Hp. unfold ProofSubsystem.verify_credential, bind.
  by rewrite (deref_Some _ _ _ Hr), Hp.
Qed.

(** A proof made with a generated private key over a content verifies
    against the public key of the pair, over that content. *)
Lemma verify_proof_over x a e vm ty purpose t :
  suite_algorithm ty = Some a →
  verify_proof x (proof_over x (private_key (keygen a e)) vm ty purpose t)
    (public_key (keygen a e)) = true.
Proof.
  intros Hs. unfold ProofSubsystem.verify_proof, ProofSubsystem.proof_over. simpl.
  rewrite signature_codec, Hs, keygen_algorithm.
  rewrite decide_True by done. apply sig_correct.
Qed.

(** Against a proof made with a generated private key, verification
    over a content is the answer of the primitive for the signature and
    the canonical bytes of that content. *)
Lemma verify_proof_primitive x y a e vm ty purpose t :
  suite_algorithm ty = Some a →
  verify_proof y (proof_over x (private_key (keygen a e)) vm ty purpose t)
    (public_key (keygen a e))
  = sig_verify (public_key (keygen a e)) (canonicalize y)
      (sig_sign (private_key (keygen a e)) (canonicalize x)).
Proof.
  intros Hs. unfold ProofSubsystem.verify_proof, ProofSubsystem.proof_over. simpl.
  rewrite signature_codec, Hs, keygen_algorithm.
  by rewrite decide_True.
Qed.

(** The tampering scenario, step by step: the copy is a new object, the
    assignment changes the copy alone, and each verification reads its
    own object. *)
Lemma tamper_scenario_outcome σ r c a e vm ty t update :
  σ !! r = Some c → cred_proof c = None →
  suite_algorithm ty = Some a →
  (tamper_scenario r (keygen a e) vm ty t update σ).1
  = Ok (verify_proof (update (content c))
          (proof_over (content c) (private_key (keygen a e)) vm ty None t)
          (public_key (keygen a e)),
        true).
Proof.
  intros Hr Hp Hs.
  unfold ProofSubsystem.tamper_scenario, bind at 1.
  rewrite (sign_credential_unsigned σ r c _ vm ty t a Hr Hp Hs).
  set (signed := fresh (dom σ)).
  set (sc := {| content := content c; cred_proof := Some _ |}).
  set (σ1 := <[signed := sc]> σ).
  assert (σ1 !! signed = Some sc) as H1 by apply lookup_insert_eq.
  unfold model_copy_deep, bind at 1. unfold bind at 1.
  rewrite (deref_Some _ _ _ H1). unfold alloc.
  set (tampered := fresh (dom σ1)).
  assert (tampered ≠ signed) as Hne by (eapply fresh_ref_ne; exact H1).
  set (σ2 := <[tampered := sc]> σ1).
  assert (σ2 !! tampered = Some sc) as H2 by apply lookup_insert_eq.
  unfold bind at 1. unfold set_content_field, bind at 1.
  rewrite (deref_Some _ _ _ H2). unfold assign.
  set (tc := {| content := update (content sc); cred_proof := cred_proof sc |}).
  set (σ3 := <[tampered := tc]> σ2).
  unfold bind at 1.
  erewrite (verify_credential_signed σ3 tampered tc);
    [| apply lookup_insert_eq | reflexivity].
  unfold bind at 1.
  erewrite (verify_credential_signed σ3 signed sc);
    [| | reflexivity].
  2: { unfold σ3, σ2. by rewrite !lookup_insert_ne. }
  simpl. by rewrite verify_proof_over.
Qed.



(** C3. [verify_credential] and [verify_signature] raise [MissingProof]
    exactly when the credential has no proof.  When it has one they
    return a boolean, the outcome of [verify_proof], which is [False]
    whenever the proof value does not decode, the suite does not stand for
    the algorithm of the key, or the signature primitive rejects; the
    store is left as it was. *)
Theorem verify_credential_raises_iff_unsigned σ r c k :
  σ !! r = Some c →
  ((verify_credential r k σ).1 = Err MissingProof ↔ cred_proof c = None)
  ∧ (∀ p, cred_proof c = Some p →
       (verify_credential r k σ).1 = Ok (verify_proof (content c) p k)
       ∧ ((decode_signature (proofValue p) = None
           ∨ suite_algorithm (proof_type p) ≠ Some (pub_algorithm k)
           ∨ (∀ s, decode_signature (proofValue p) = Some s →
                   sig_verify k (canonicalize (content c)) s = false)) →
          (verify_credential r k σ).1 = Ok false))
  ∧ verify_signature r k σ = verify_credential r k σ
  ∧ (verify_credential r k σ).2 = σ.
Proof.
  intros Hr. unfold ProofSubsystem.verify_signature.
  destruct (cred_proof c) as [p|] eqn:Hp.
  - rewrite (verify_credential_signed σ r c p k Hr Hp). simpl.
    split; [by split|]. split; [|done].
    intros p' [= <-]. split; [done|]. intros Hfail. f_equal.
    unfold ProofSubsystem.verify_proof.
    destruct (decode_signature (proofValue p)) as [s|] eqn:Hd; [|done].
    destruct (suite_algorithm (proof_type p)) as [a|] eqn:Hs; [|done].
    destruct (decide (a = pub_algorithm k)) as [->|Hne]; [|done].
    destruct Hfail as [?|[?|Hrej]]; [done..|]. by apply Hrej.
  - rewrite (verify_credential_unsigned σ r c k Hr Hp). simpl.
    split; [done|]. split; [|done]. intros p' [=].
Qed.

(** C4. [sign_credential], and the method [sign], raise [DuplicateProof]
    on a credential that carries a proof, and leave the whole store, the
    credential with its proof and content included, as it was. *)
Theorem sign_credential_duplicate_proof σ r c p k vm ty oty t :
  σ !! r = Some c → cred_proof c = Some p →
  sign_credential r k vm ty t σ = (Err DuplicateProof, σ)
  ∧ sign r k vm oty t σ = (Err DuplicateProof, σ)
  ∧ σ !! r = Some c.
Proof.
  intros Hr Hp. split; [|split; [|done]].
  - by apply (sign_credential_signed σ r c p).
  - unfold ProofSubsystem.sign. by apply (sign_credential_signed σ r c p).
Qed.

(** C5. When [sign_credential] (or the method [sign], which hands over to
    it) returns on an unsigned credential, what it returns is a reference
    to a new object that carries a proof over the same content, and every
    object of the store before the call, the argument first of all, is as
    it was: the argument still has no proof.  With a supported suite the
    call does return. *)
Theorem sign_credential_leaves_input σ r c k vm ty t :
  σ !! r = Some c → cred_proof c = None →
  sign r k vm (Some ty) t σ = sign_credential r k vm ty t σ
  ∧ (is_Some (suite_algorithm ty) →
     ∃ r' σ', sign_credential r k vm ty t σ = (Ok r', σ'))
  ∧ (∀ r' σ', sign_credential r k vm ty t σ = (Ok r', σ') →
       r' ≠ r ∧ σ !! r' = None
       ∧ (∃ p, σ' !! r' = Some {| content := content c; cred_proof := Some p |})
       ∧ σ' !! r = Some c
       ∧ (∀ r'', r'' ≠ r' → σ' !! r'' = σ !! r'')).
Proof.
  intros Hr Hp. split; [reflexivity|]. split.
  - intros [a Hs]. rewrite (sign_credential_unsigned σ r c k vm ty t a Hr Hp Hs).
    eauto.
  - intros r' σ' Hsign.
    destruct (suite_algorithm ty) as [a|] eqn:Hs.
    + rewrite (sign_credential_unsigned σ r c k vm ty t a Hr Hp Hs) in Hsign.
      injection Hsign as <- <-.
      pose proof (fresh_ref_ne σ r c Hr) as Hne.
      split; [done|]. split; [apply fresh_ref_None|].
      split; [eexists; apply lookup_insert_eq|].
      split; [by rewrite lookup_insert_ne|].
      intros r'' Hr''. by rewrite lookup_insert_ne.
    + by rewrite (sign_credential_unsupported σ r c k vm ty t Hr Hp Hs) in Hsign.
Qed.

(** No primitive that is correct and signs into byte strings of one size
    can reject every changed copy: among contents that differ there are
    two, [x] and [y], such that the credential signed over [x] and then
    changed to [y] still verifies [True]. *)
Theorem fixed_size_tampering_undetected (n : nat) a e vm ty t
    (contents : nat → Content) :
  suite_algorithm ty = Some a →
  (∀ m, length (sig_sign (private_key (keygen a e)) m) = n) →
  (∀ i j, contents i = contents j → i = j) →
  ∃ x y, x ≠ y
       ∧ (tamper_scenario 1%positive (keygen a e) vm ty t (λ _, y)
            {[ 1%positive := {| content := x; cred_proof := None |} ]}).1
         = Ok (true, true).
Proof.
  intros Hs Hlen Hinj.
  destruct (pigeonhole
              (λ i, sig_sign (private_key (keygen a e))
                      (canonicalize (contents i)))
              (FixedSize.words n)) as (i & j & Hne & Heq).
  { intros i. rewrite <- (Hlen (canonicalize (contents i))).
    apply words_complete. }
  exists (contents i), (contents j). split; [by intros H%Hinj|].
  rewrite (tamper_scenario_outcome _ 1%positive
             {| content := contents i; cred_proof := None |} a e vm ty t _
             (lookup_singleton_eq _ _) eq_refl Hs).
  simpl. rewrite (verify_proof_primitive _ _ a e vm ty None t Hs).
  by rewrite Heq, sig_correct.
Qed.

End ProofFacts.

(* ===================================================================== *)
(** ** The scenarios of the test suite, run on the small instance *)
(* ===================================================================== *)

Section Scenarios.
Import ProofSubsystem.





Lemma verify_credential_raises_iff_unsigned_witness :
  Toy.store1 !! 1%positive = Some Toy.unsigned
  ∧ (verify_credential string Toy.canonicalize Toy.sig_verify
       Toy.decode_signature Toy.suite_algorithm 1%positive
       (public_key Toy.keypair1) Toy.store1).1 = Err MissingProof.
Proof.
  split; [reflexivity|].
  apply (verify_credential_raises_iff_unsigned string Toy.canonicalize
           Toy.sig_verify Toy.decode_signature Toy.suite_algorithm
           Toy.store1 1%positive Toy.unsigned (public_key Toy.keypair1)
           eq_refl).
  reflexivity.
Defined.

Lemma sign_credential_duplicate_proof_witness :
  Toy.store1 !! 2%positive = Some Toy.already_signed
  ∧ cred_proof Toy.already_signed = Some Toy.some_proof
  ∧ sign_credential string Toy.canonicalize Toy.sig_sign
      Toy.encode_signature Toy.suite_algorithm 2%positive
      (private_key Toy.keypair1) Toy.key_url "Ed25519Signature2020"
      (Naive 0) Toy.store1
    = (Err DuplicateProof, Toy.store1).
Proof.
  split; [reflexivity|]. split; [reflexivity|].
  apply (sign_credential_duplicate_proof string Toy.canonicalize
           Toy.sig_sign Toy.encode_signature Toy.suite_algorithm
           Toy.store1 2%positive Toy.already_signed Toy.some_proof
           (private_key Toy.keypair1) Toy.key_url "Ed25519Signature2020"
           None (Naive 0) eq_refl eq_refl).
Defined.

Lemma sign_credential_leaves_input_witness :
  Toy.store1 !! 1%positive = Some Toy.unsigned
  ∧ cred_proof Toy.unsigned = None
  ∧ ∃ r' σ',
      sign_credential string Toy.canonicalize Toy.sig_sign
        Toy.encode_signature Toy.suite_algorithm 1%positive
        (private_key Toy.keypair1) Toy.key_url "Ed25519Signature2020"
        (Naive 0) Toy.store1 = (Ok r', σ')
      ∧ r' ≠ 1%positive
      ∧ σ' !! 1%positive = Some Toy.unsigned.
Proof.
  split; [reflexivity|]. split; [reflexivity|].
  destruct (sign_credential_leaves_input string Toy.canonicalize
              Toy.sig_sign Toy.encode_signature Toy.suite_algorithm
              Toy.store1 1%positive Toy.unsigned
              (private_key Toy.keypair1) Toy.key_url
              "Ed25519Signature2020" (Naive 0) eq_refl eq_refl)
    as (_ & Hret & Hframe).
  destruct Hret as (r' & σ' & Hs); [by eexists|].
  exists r', σ'. split; [exact Hs|].
  destruct (Hframe r' σ' Hs) as (Hne & _ & _ & Hin & _).
  split; [exact Hne | exact Hin].
Defined.

(** The same for contents at large: with the fixed-size signature two
    different contents exist between which the change goes unnoticed. *)
Lemma fixed_size_tampering_undetected_instance :
  ∃ x y : string, x ≠ y
    ∧ (tamper_scenario string Toy.canonicalize FixedSize.sig_sign
         FixedSize.sig_verify Toy.encode_signature Toy.decode_signature
         Toy.suite_algorithm 1%positive Toy.keypair1 Toy.key_url
         "Ed25519Signature2020" (Naive 0) (λ _, y)
         {[ 1%positive := {| content := x;
                             cred_proof := None |} ]}).1
      = Ok (true, true).
Proof.
  apply (fixed_size_tampering_undetected string Toy.canonicalize
           FixedSize.sig_sign FixedSize.sig_verify Toy.encode_signature
           Toy.decode_signature Toy.suite_algorithm Toy.keygen
           toy_keygen_algorithm fixed_size_sig_correct toy_signature_codec
           4 Ed25519 Toy.entropy1 Toy.key_url
           "Ed25519Signature2020" (Naive 0) (pretty : nat → string)).
  - reflexivity.
  - intros m. apply fixed_size_sig_length.
  - intros i j H. by apply (inj pretty).
Qed.

End Scenarios.

(* ===================================================================== *)
(** ** More on the validators and on construction *)
(* ===================================================================== *)

Section Validators.

Implicit Types (d : gmap string value).

Lemma validate_type_Ok (v v' : list string) :
  validate_type v = Ok v' →
  v' = v ∧ "VerifiableCredential" ∈ v ∧ "OpenBadgeCredential" ∈ v.
Proof.
  unfold validate_type. intros H.
  destruct (decide ("VerifiableCredential" ∈ v)) as [Hvc|Hvc];
    [rewrite (bool_decide_eq_true_2 _ Hvc) in H
    |by rewrite (bool_decide_eq_false_2 _ Hvc) in H].
  destruct (decide ("OpenBadgeCredential" ∈ v)) as [Ho|Ho];
    [rewrite (bool_decide_eq_true_2 _ Ho) in H
    |by rewrite (bool_decide_eq_false_2 _ Ho) in H].
  simpl in H. by injection H as <-.
Qed.

Lemma validate_type_Ok_intro (v : list string) :
  "VerifiableCredential" ∈ v → "OpenBadgeCredential" ∈ v →
  validate_type v = Ok v.
Proof.
  intros Hvc Ho. unfold validate_type.
  by rewrite (bool_decide_eq_true_2 _ Hvc), (bool_decide_eq_true_2 _ Ho).
Qed.

(** What a successful run of the validator stage has established. *)
Lemma init_Ok_inv (fields c : OpenBadgeCredential) :
  OpenBadgeCredential_init fields = Ok c →
  "VerifiableCredential" ∈ credential_type fields
  ∧ "OpenBadgeCredential" ∈ credential_type fields
  ∧ credential_type c = credential_type fields
  ∧ issuer c = validate_issuer (issuer fields).
Proof.
  unfold OpenBadgeCredential_init. intros H.
  destruct (validate_type (credential_type fields)) as [ty|e] eqn:Hv;
    simpl in H; [|discriminate].
  apply validate_type_Ok in Hv as (-> & Hvc & Ho).
  by injection H as <-.
Qed.

(** X1. [validate_type] accepts a list exactly when it holds both required
    types, and then returns it as it is (order and further types kept).
    When ['VerifiableCredential'] is missing the error names it, whether or
    not ['OpenBadgeCredential'] is missing too; the error names
    ['OpenBadgeCredential'] only when that alone is missing. *)
Theorem validate_type_accepts_iff (v : list string) :
  (validate_type v = Ok v
     ↔ "VerifiableCredential" ∈ v ∧ "OpenBadgeCredential" ∈ v)
  ∧ (∀ v', validate_type v = Ok v' → v' = v)
  ∧ ("VerifiableCredential" ∉ v →
       validate_type v
       = Err (ValueError "Le type doit inclure 'VerifiableCredential'"))
  ∧ ("VerifiableCredential" ∈ v → "OpenBadgeCredential" ∉ v →
       validate_type v
       = Err (ValueError "Le type doit inclure 'OpenBadgeCredential'")).
Proof.
  unfold validate_type.
  destruct (decide ("VerifiableCredential" ∈ v)) as [Hvc|Hvc];
    [rewrite (bool_decide_eq_true_2 _ Hvc)
    |rewrite (bool_decide_eq_false_2 _ Hvc)]; simpl.
  - destruct (decide ("OpenBadgeCredential" ∈ v)) as [Ho|Ho];
      [rewrite (bool_decide_eq_true_2 _ Ho)
      |rewrite (bool_decide_eq_false_2 _ Ho)]; simpl.
    + repeat split; try done. by intros v' [= <-].
    + repeat split; try done. intros [_ ?]. done.
  - repeat split; try done. intros [? _]. done.
Qed.

(** The test of [validate_issuer], as a proposition. *)
Lemma needs_default_name d :
  has_key "type" d
  && from_option (λ t, eq_str t "Profile") false (d !! "type")
  && has_key "id" d
  && negb (has_key "name" d) = true
  ↔ d !! "type" = Some (VStr "Profile") ∧ is_Some (d !! "id") ∧ d !! "name" = None.
Proof.
  unfold has_key. split.
  - intros H.
    apply andb_prop in H as [H Hname].
    apply andb_prop in H as [H Hid].
    apply andb_prop in H as [_ Htype].
    destruct (d !! "type") as [[]|] eqn:Ht; simpl in *; try done.
    repeat split.
    + f_equal. f_equal. by apply bool_decide_eq_true in Htype.
    + by apply bool_decide_eq_true in Hid.
    + by destruct (d !! "name").
  - intros (Ht & [i Hi] & Hn). by rewrite Ht, Hi, Hn.
Qed.

Lemma validate_issuer_has_name d n :
  d !! "name" = Some n → validate_issuer (IssuerDict d) = IssuerDict d.
Proof.
  intros Hn. unfold validate_issuer, has_key. rewrite Hn. simpl.
  by rewrite !andb_false_r.
Qed.

(** X2. Validating an issuer twice is the same as validating it once. *)
Theorem validate_issuer_idempotent (v : issuer_ref) :
  validate_issuer (validate_issuer v) = validate_issuer v.
Proof.
  destruct v as [u|d|p]; try reflexivity.
  unfold validate_issuer at 2 3.
  destruct (has_key "type" d && _ && _ && _) eqn:Hc.
  - eapply validate_issuer_has_name, lookup_insert_eq.
  - unfold validate_issuer. by rewrite Hc.
Qed.

(** X3. Whatever comes out of [validate_issuer] as a dict tagged
    ['Profile'] with an ['id'] has a ['name']. *)
Theorem validate_issuer_named (v : issuer_ref) d :
  validate_issuer v = IssuerDict d →
  d !! "type" = Some (VStr "Profile") → is_Some (d !! "id") →
  is_Some (d !! "name").
Proof.
  intros Hv Ht Hid. destruct v as [u|d0|p]; try discriminate.
  unfold validate_issuer in Hv.
  destruct (has_key "type" d0 && _ && _ && _) eqn:Hc.
  - injection Hv as <-. rewrite lookup_insert_eq. by eexists.
  - injection Hv as <-.
    destruct (d0 !! "name") eqn:Hn; [by eexists|].
    rewrite (proj2 (needs_default_name d0)) in Hc; done.
Qed.

Lemma validate_issuer_named_witness :
  is_Some (<["name" := VStr "Unnamed Issuer"]> dict_issuer !! "name").
Proof.
  apply (validate_issuer_named (IssuerDict dict_issuer)
           (<["name" := VStr "Unnamed Issuer"]> dict_issuer)).
  - reflexivity.
  - reflexivity.
  - by eexists.
Defined.

(** X4. [validate_issuer] keeps every entry of an issuer dict as it is: the
    validated dict extends the given one, and differs from it at most
    under ['name']; a name that is present is never replaced. *)
Theorem validate_issuer_extends d :
  ∃ d', validate_issuer (IssuerDict d) = IssuerDict d'
      ∧ d ⊆ d'
      ∧ (∀ k, k ≠ "name" → d' !! k = d !! k)
      ∧ (∀ n, d !! "name" = Some n → d' !! "name" = Some n).
Proof.
  unfold validate_issuer.
  destruct (has_key "type" d && _ && _ && _) eqn:Hc.
  - apply needs_default_name in Hc as (_ & _ & Hn).
    eexists; split; [reflexivity|]. split; [by apply insert_subseteq|].
    split.
    + intros k Hk. by rewrite lookup_insert_ne.
    + intros n Hn'. congruence.
  - exists d. done.
Qed.

(** X5. [validate_issuer] leaves an issuer dict unchanged exactly when the
    dict is not tagged with the string ['Profile'], or has no ['id'], or
    has a ['name'] already. *)
Theorem validate_issuer_unchanged_iff d :
  validate_issuer (IssuerDict d) = IssuerDict d
  ↔ ¬ (d !! "type" = Some (VStr "Profile")
       ∧ is_Some (d !! "id") ∧ d !! "name" = None).
Proof.
  unfold validate_issuer.
  destruct (has_key "type" d && _ && _ && _) eqn:Hc.
  - apply needs_default_name in Hc as Hc'. split; [|done].
    intros [= Heq] _. destruct Hc' as (_ & _ & Hn).
    rewrite <- Heq in Hn. by rewrite lookup_insert_eq in Hn.
  - split; [|done]. intros _ Hc'.
    apply needs_default_name in Hc'. congruence.
Qed.

(** X6. [validate_achievement] rejects, with a [ValueError], exactly the
    achievement dicts that have no ['id']; any other achievement is
    returned as it is. *)
Theorem validate_achievement_rejects_iff (v : achievement_ref) :
  ((∃ e, validate_achievement v = Err e)
     ↔ ∃ d, v = AchievementDict d ∧ d !! "id" = None)
  ∧ (∀ e, validate_achievement v = Err e → ∃ msg, e = ValueError msg)
  ∧ (∀ v', validate_achievement v = Ok v' → v' = v).
Proof.
  assert (∀ w : achievement_ref,
            validate_achievement w = Ok w →
            ¬ (∃ d, w = AchievementDict d ∧ d !! "id" = None) →
            ((∃ e, validate_achievement w = Err e)
               ↔ ∃ d, w = AchievementDict d ∧ d !! "id" = None)
            ∧ (∀ e, validate_achievement w = Err e → ∃ msg, e = ValueError msg)
            ∧ (∀ w', validate_achievement w = Ok w' → w' = w)) as Haccepted.
  { intros w -> Hno. split; [|split].
    - split; [intros [e [=]] | done].
    - intros e [=].
    - by intros w' [= <-]. }
  destruct v as [u|d|a].
  - apply Haccepted; [done | intros (d & [=] & _)].
  - destruct (d !! "id") as [i|] eqn:Hi.
    + apply Haccepted.
      * simpl. unfold has_key. by rewrite Hi.
      * intros (d' & [= <-] & Hn). congruence.
    + simpl. unfold has_key. rewrite Hi. simpl. split; [|split].
      * split; [intros _; by exists d | intros _; by eexists].
      * intros e [= <-]. by eexists.
      * intros v' [=].
  - apply Haccepted; [done | intros (d & [=] & _)].
Qed.

(** X7. Given fields already parsed to their declared types, the
    validator stage of a subject's construction fails only when the
    achievement is a dict without ['id'], and otherwise returns the parsed
    fields as they are. *)
Theorem AchievementSubject_init_stores (fields : AchievementSubject) :
  match AchievementSubject_init fields with
  | Ok s => s = fields
          ∧ ∀ d, achievement fields = AchievementDict d → is_Some (d !! "id")
  | Err e => ∃ d, achievement fields = AchievementDict d ∧ d !! "id" = None
  end.
Proof.
  unfold AchievementSubject_init. destruct fields as [i t a n]. simpl.
  destruct a as [u|d|o]; simpl; try (split; [done | by intros ? [=]]).
  unfold has_key. destruct (d !! "id") eqn:Hi; simpl.
  - split; [done|]. intros ? [= <-]. by eexists.
  - by exists d.
Qed.


(** X9. A credential that construction has produced passes construction
    again unchanged. *)
Theorem init_idempotent (fields c : OpenBadgeCredential) :
  OpenBadgeCredential_init fields = Ok c →
  OpenBadgeCredential_init c = Ok c.
Proof.
  intros Hc. destruct (init_Ok_inv fields c Hc) as (Hvc & Ho & Hty & Hi).
  unfold OpenBadgeCredential_init.
  rewrite Hty, (validate_type_Ok_intro _ Hvc Ho). simpl.
  assert (validate_issuer (issuer c) = issuer c) as ->.
  { rewrite Hi. destruct (issuer fields) as [u|d|p]; try reflexivity.
    unfold validate_issuer at 2 3.
    destruct (has_key "type" d && _ && _ && _) eqn:Hcond.
    - eapply validate_issuer_has_name, lookup_insert_eq.
    - unfold validate_issuer. by rewrite Hcond. }
  rewrite <- Hty. by destruct c.
Qed.

Lemma init_idempotent_witness :
  ∃ c, OpenBadgeCredential_init fields_dict_issuer = Ok c
     ∧ OpenBadgeCredential_init c = Ok c.
Proof.
  eexists. split; [reflexivity|].
  apply (init_idempotent fields_dict_issuer). reflexivity.
Defined.

End Validators.

(* ===================================================================== *)
(** ** More on validity *)
(* ===================================================================== *)

Section ValidityOverTime.

Implicit Types (c : OpenBadgeCredential).

(** The three ways [is_valid] can go, by the fields it reads. *)
Lemma is_valid_cases c (clock : Z) :
  (truthy (revoked c) = true ∧ is_valid c clock = Ok false)
  ∨ (truthy (revoked c) = false ∧ expirationDate c = None
     ∧ is_valid c clock = Ok true)
  ∨ (∃ e, truthy (revoked c) = false ∧ expirationDate c = Some (Naive e)
        ∧ is_valid c clock = Ok (negb (Z.ltb e clock)))
  ∨ (∃ w off, truthy (revoked c) = false
        ∧ expirationDate c = Some (Aware w off)
        ∧ is_valid c clock =
            Err (TypeError "can't compare offset-naive and offset-aware datetimes")).
Proof.
  destruct (truthy (revoked c)) eqn:Hr.
  - left. split; [done|]. unfold is_valid. by rewrite Hr.
  - right. destruct (expirationDate c) as [[e|w off]|] eqn:He.
    + right. left. exists e. split; [done|]. split; [done|].
      by apply (is_valid_naive_expiration c clock e).
    + right. right. exists w, off. split; [done|]. split; [done|].
      by apply (is_valid_aware_expiration c clock w off).
    + left. split; [done|]. split; [done|]. by apply is_valid_no_expiration.
Qed.

(** X10. [is_valid] raises exactly when the credential is not revoked and
    its expiration date is an aware datetime; what it raises then is a
    [TypeError].  In every other case it returns a boolean. *)
Theorem is_valid_raises_iff c (clock : Z) :
  ((∃ e, is_valid c clock = Err e)
     ↔ truthy (revoked c) = false
       ∧ ∃ w off, expirationDate c = Some (Aware w off))
  ∧ (∀ e, is_valid c clock = Err e → ∃ msg, e = TypeError msg).
Proof.
  destruct (is_valid_cases c clock)
    as [(Hr & ->)|[(Hr & He & ->)|[(e & Hr & He & ->)|(w & off & Hr & He & ->)]]].
  - split; [|intros ? [=]]. split; [intros [? [=]]|]. intros [? _]. congruence.
  - split; [|intros ? [=]]. split; [intros [? [=]]|].
    intros (_ & ? & ? & ?). congruence.
  - split; [|intros ? [=]]. split; [intros [? [=]]|].
    intros (_ & ? & ? & ?). congruence.
  - split; [|intros ? [= <-]; by eexists].
    split; [intros _; eauto | intros _; by eexists].
Qed.

(** X11. Validity only decays: a credential found invalid stays invalid
    at every later reading of the clock, and one found valid was valid at
    every earlier reading (its fields being the same). *)
Theorem is_valid_decays c (t t' : Z) :
  (t ≤ t')%Z →
  (is_valid c t = Ok false → is_valid c t' = Ok false)
  ∧ (is_valid c t' = Ok true → is_valid c t = Ok true).
Proof.
  intros Hle.
  destruct (is_valid_cases c t)
    as [(Hr & ->)|[(Hr & He & ->)|[(e & Hr & He & ->)|(w & off & Hr & He & ->)]]].
  - rewrite (is_valid_revoked c t') by (by destruct (revoked c) as [[]|]).
    done.
  - by rewrite (is_valid_no_expiration c t').
  - rewrite (is_valid_naive_expiration c t' e) by done.
    destruct (Z.ltb_spec e t), (Z.ltb_spec e t'); simpl; try done; lia.
  - by rewrite (is_valid_aware_expiration c t' w off).
Qed.

Lemma is_valid_decays_witness :
  (clock_2025 ≤ clock_2025 + 1)%Z
  ∧ is_valid cred_expired_naive (clock_2025 + 1) = Ok false.
Proof.
  assert (clock_2025 ≤ clock_2025 + 1)%Z as Hle by lia.
  split; [exact Hle|].
  apply (is_valid_decays cred_expired_naive clock_2025 (clock_2025 + 1) Hle).
  reflexivity.
Defined.

(** X12. For a credential that is not revoked and expires at a naive
    datetime, [is_valid] is [True] exactly up to and including the instant
    of expiration: the comparison with the clock is strict. *)
Theorem is_valid_until_expiration c (clock e : Z) :
  truthy (revoked c) = false →
  expirationDate c = Some (Naive e) →
  (is_valid c clock = Ok true ↔ (clock ≤ e)%Z)
  ∧ (is_valid c clock = Ok false ↔ (e < clock)%Z).
Proof.
  intros Hr He. rewrite (is_valid_naive_expiration c clock e Hr He).
  destruct (Z.ltb_spec e clock); simpl; split; split; (done || lia).
Qed.

Lemma is_valid_until_expiration_witness :
  is_valid cred_expires_now clock_2025 = Ok true.
Proof.
  apply (is_valid_until_expiration cred_expires_now clock_2025 clock_2025);
    [reflexivity | reflexivity | lia].
Defined.

End ValidityOverTime.

(* ===================================================================== *)
(** ** More on JSON-LD emission *)
(* ===================================================================== *)

Section JsonLdEntries.

Variable isoformat : datetime → string.
Variable str_other : value → string.
Variable dump_dict : gmap string value → gmap string value.

Implicit Types (self : OpenBadgeCredential) (data subj : gmap string value).

Local Abbreviation to_json_ld := (to_json_ld isoformat str_other dump_dict).
Local Abbreviation model_dump := (model_dump dump_dict).
Local Abbreviation prepared := (prepared isoformat str_other dump_dict).

Lemma put_opt_lookup_eq {A} k (f : A → value) o data :
  put_opt k f o data !! k = match o with Some a => Some (f a) | None => data !! k end.
Proof. destruct o; simpl; [apply lookup_insert_eq | done]. Qed.

(** The entries of the dump, field by field. *)
Lemma model_dump_required self :
  model_dump self !! "id" = Some (VUrl (url_str (credential_id self)))
  ∧ model_dump self !! "type" = Some (VList (VStr <$> credential_type self))
  ∧ model_dump self !! "issuanceDate" = Some (VDatetime (issuanceDate self)).
Proof. unfold Model.model_dump. by rewrite !put_opt_lookup_ne. Qed.

Lemma model_dump_expirationDate self :
  model_dump self !! "expirationDate" = VDatetime <$> expirationDate self.
Proof.
  unfold Model.model_dump. rewrite !(put_opt_lookup_ne _ "expirationDate") by done.
  rewrite put_opt_lookup_eq. destruct (expirationDate self); [done|].
  by rewrite !put_opt_lookup_ne.
Qed.

Lemma model_dump_proof self :
  model_dump self !! "proof" = (λ p, VDict (dump_Proof p)) <$> proof self.
Proof.
  unfold Model.model_dump. rewrite !(put_opt_lookup_ne _ "proof") by done.
  rewrite put_opt_lookup_eq. destruct (proof self); [done|].
  by rewrite !put_opt_lookup_ne.
Qed.

Lemma model_dump_no_context self : model_dump self !! "@context" = None.
Proof. unfold Model.model_dump. by rewrite !put_opt_lookup_ne. Qed.

Lemma str_id_dom data : dom (str_id str_other data) = dom data.
Proof.
  unfold str_id. destruct (data !! "id") eqn:Hi; [|done].
  apply dom_insert_lookup_L. eauto.
Qed.

Lemma iso_entry_dom k data : dom (iso_entry isoformat k data) = dom data.
Proof.
  unfold iso_entry. destruct (data !! k) as [[]|] eqn:Hk; try done.
  apply dom_insert_lookup_L. eauto.
Qed.

Lemma convert_issuer_dom self data :
  is_Some (data !! "issuer") → dom (convert_issuer str_other self data) = dom data.
Proof.
  intros Hi. unfold convert_issuer.
  destruct (issuer self); try by apply dom_insert_lookup_L.
  all: destruct (data !! "issuer") as [[]|] eqn:Hd; try done;
    apply dom_insert_lookup_L; eauto.
Qed.

Lemma prepared_dom self : dom (prepared self) = dom (model_dump self).
Proof. unfold Model.prepared. by rewrite !iso_entry_dom, str_id_dom. Qed.

Lemma prepared_lookup_other self k :
  k ≠ "id" → k ≠ "issuanceDate" → k ≠ "expirationDate" →
  prepared self !! k = model_dump self !! k.
Proof.
  intros. unfold Model.prepared.
  by rewrite !iso_entry_lookup_ne, str_id_lookup_ne.
Qed.

(** X13. [to_json_ld] adds the key ["@context"], which the dump does not
    have, and neither adds nor drops any other key: an optional field
    appears in the output exactly when it is set. *)
Theorem to_json_ld_keys self :
  ∃ data, to_json_ld self = Ok data
        ∧ dom data = dom (model_dump self) ∪ {["@context"]}
        ∧ "@context" ∉ dom (model_dump self).
Proof.
  destruct (to_json_ld_returns isoformat str_other dump_dict self)
    as (subj & -> & _).
  eexists; split; [reflexivity|]. split.
  - rewrite dom_insert_L, dom_insert_lookup_L.
    + rewrite convert_issuer_dom, prepared_dom; [by rewrite (comm_L (∪))|].
      rewrite prepared_issuer. eauto.
    + rewrite convert_issuer_lookup_ne by done.
      rewrite prepared_subject. eauto.
  - apply not_elem_of_dom, model_dump_no_context.
Qed.

(** X14. In the output the credential's [id] is its URL as a string, the
    issuance date its ISO text, the expiration date its ISO text when set
    and absent otherwise, and the type list is passed as it is. *)
Theorem to_json_ld_scalars self :
  ∃ data, to_json_ld self = Ok data
        ∧ data !! "id" = Some (VStr (url_str (credential_id self)))
        ∧ data !! "type" = Some (VList (VStr <$> credential_type self))
        ∧ data !! "issuanceDate" = Some (VStr (isoformat (issuanceDate self)))
        ∧ data !! "expirationDate"
          = (λ d, VStr (isoformat d)) <$> expirationDate self.
Proof.
  destruct (to_json_ld_returns isoformat str_other dump_dict self)
    as (subj & -> & _).
  destruct (model_dump_required self) as (Hid & Hty & Hiss).
  eexists; split; [reflexivity|].
  rewrite !lookup_insert_ne, !convert_issuer_lookup_ne by done.
  unfold Model.prepared. repeat split.
  - rewrite !iso_entry_lookup_ne by done. unfold str_id.
    rewrite Hid. by rewrite lookup_insert_eq.
  - rewrite !iso_entry_lookup_ne, str_id_lookup_ne by done. exact Hty.
  - rewrite iso_entry_lookup_ne by done. unfold iso_entry at 1.
    rewrite str_id_lookup_ne, Hiss by done. by rewrite lookup_insert_eq.
  - unfold iso_entry at 1.
    rewrite iso_entry_lookup_ne, str_id_lookup_ne by done.
    rewrite model_dump_expirationDate.
    destruct (expirationDate self) as [d|] eqn:He; simpl.
    + by rewrite lookup_insert_eq.
    + rewrite iso_entry_lookup_ne, str_id_lookup_ne by done.
      by rewrite model_dump_expirationDate, He.
Qed.

(** X15. Apart from [id], the two dates, [issuer], [credentialSubject] and
    ["@context"], every entry of the output is the entry of the dump,
    untouched. *)
Theorem to_json_ld_frame self :
  ∃ data, to_json_ld self = Ok data
        ∧ ∀ k, k ∉ [ "id"; "issuanceDate"; "expirationDate"; "issuer";
                     "credentialSubject"; "@context" ] →
               data !! k = model_dump self !! k.
Proof.
  destruct (to_json_ld_returns isoformat str_other dump_dict self)
    as (subj & -> & _).
  eexists; split; [reflexivity|]. intros k Hk.
  assert (k ≠ "id" ∧ k ≠ "issuanceDate" ∧ k ≠ "expirationDate"
          ∧ k ≠ "issuer" ∧ k ≠ "credentialSubject" ∧ k ≠ "@context")
    as (? & ? & ? & ? & ? & ?).
  { repeat split; intros ->; apply Hk; set_solver. }
  rewrite !lookup_insert_ne, convert_issuer_lookup_ne by done.
  by apply prepared_lookup_other.
Qed.

(** X16. The proof goes into the output as the dump has it: absent for an
    unsigned credential; for a signed one, a dict in which [created] is
    still a [datetime] object and [verificationMethod] still a [Url]
    object (neither is turned into text). *)
Theorem to_json_ld_proof_unconverted self :
  ∃ data, to_json_ld self = Ok data
        ∧ match proof self with
          | None => data !! "proof" = None
          | Some p =>
              ∃ pd, data !! "proof" = Some (VDict pd)
                  ∧ pd !! "created" = Some (VDatetime (created p))
                  ∧ pd !! "verificationMethod"
                    = Some (VUrl (url_str (verificationMethod p)))
                  ∧ pd !! "proofValue" = Some (VStr (proofValue p))
                  ∧ pd !! "type" = Some (VStr (proof_type p))
                  ∧ pd !! "proofPurpose" = Some (VStr (proofPurpose p))
          end.
Proof.
  destruct (to_json_ld_returns isoformat str_other dump_dict self)
    as (subj & -> & _).
  eexists; split; [reflexivity|].
  rewrite !lookup_insert_ne, convert_issuer_lookup_ne by done.
  rewrite prepared_lookup_other, model_dump_proof by done.
  destruct (proof self) as [p|]; [|done].
  exists (dump_Proof p). by repeat split.
Qed.

Lemma convert_achievement_frame self data subj :
  data !! "credentialSubject" = Some (VDict subj) →
  ∃ subj', convert_achievement str_other self data
             = Ok (<["credentialSubject" := VDict subj']> data)
         ∧ ∀ k, k ≠ "achievement" → subj' !! k = subj !! k.
Proof.
  intros Hs. unfold convert_achievement, getitem.
  destruct (achievement (credentialSubject self)) as [u|d|a];
    rewrite Hs; simpl.
  3: { eexists; split; [reflexivity|]. intros k Hk. by rewrite lookup_insert_ne. }
  all: destruct (subj !! "achievement") as [[]|] eqn:Ha; simpl;
    try (exists subj; split; [by rewrite insert_id | done]).
  all: eexists; split; [reflexivity|]; intros k Hk; by rewrite lookup_insert_ne.
Qed.

(** X17. Under ["credentialSubject"] the output holds a dict with the
    subject's [id] and [type] as strings, and its [name] exactly when the
    subject has one. *)
Theorem to_json_ld_subject self :
  ∃ data subj,
    to_json_ld self = Ok data
    ∧ data !! "credentialSubject" = Some (VDict subj)
    ∧ subj !! "id" = Some (VStr (subject_id (credentialSubject self)))
    ∧ subj !! "type" = Some (VStr (subject_type (credentialSubject self)))
    ∧ subj !! "name" = VStr <$> subject_name (credentialSubject self).
Proof.
  unfold Model.to_json_ld. fold (prepared self).
  destruct (convert_achievement_frame self
              (convert_issuer str_other self (prepared self))
              (dump_AchievementSubject dump_dict (credentialSubject self)))
    as (subj' & -> & Hframe).
  { rewrite convert_issuer_lookup_ne by done. apply prepared_subject. }
  simpl. rewrite (convert_subject_id_Ok str_other _ subj') by apply lookup_insert_eq.
  simpl. eexists _, (str_id str_other subj'). split; [reflexivity|].
  split; [rewrite lookup_insert_ne by done; apply lookup_insert_eq|].
  assert (subj' !! "id" = Some (VStr (subject_id (credentialSubject self))))
    as Hid.
  { rewrite Hframe by done. unfold dump_AchievementSubject.
    by rewrite put_opt_lookup_ne. }
  repeat split.
  - unfold str_id. rewrite Hid. by rewrite lookup_insert_eq.
  - rewrite str_id_lookup_ne, Hframe by done.
    unfold dump_AchievementSubject. by rewrite put_opt_lookup_ne.
  - rewrite str_id_lookup_ne, Hframe by done.
    unfold dump_AchievementSubject. rewrite put_opt_lookup_eq.
    by destruct (subject_name (credentialSubject self)).
Qed.

(** X18. The JSON-LD of a credential that construction has accepted lists
    both required types. *)
Theorem init_to_json_ld_types (fields c : OpenBadgeCredential) :
  OpenBadgeCredential_init fields = Ok c →
  ∃ data l,
    to_json_ld c = Ok data
    ∧ data !! "type" = Some (VList l)
    ∧ VStr "VerifiableCredential" ∈ l
    ∧ VStr "OpenBadgeCredential" ∈ l.
Proof.
  intros Hc. destruct (init_Ok_inv fields c Hc) as (Hvc & Ho & Hty & _).
  destruct (to_json_ld_returns isoformat str_other dump_dict c)
    as (subj & Hd & _).
  eexists _, (VStr <$> credential_type c). split; [exact Hd|]. split.
  - rewrite !lookup_insert_ne, convert_issuer_lookup_ne by done.
    rewrite prepared_lookup_other by done. apply model_dump_required.
  - rewrite Hty. split; by apply list_elem_of_fmap_2.
Qed.

End JsonLdEntries.

Lemma init_to_json_ld_types_witness :
  ∃ c data l,
    OpenBadgeCredential_init fields_dict_issuer = Ok c
    ∧ to_json_ld (λ _, "2025-01-01T00:00:00") (λ _, "") (λ d, d) c = Ok data
    ∧ data !! "type" = Some (VList l)
    ∧ VStr "VerifiableCredential" ∈ l
    ∧ VStr "OpenBadgeCredential" ∈ l.
Proof.
  assert (∃ c, OpenBadgeCredential_init fields_dict_issuer = Ok c) as [c Hc]
    by (eexists; reflexivity).
  destruct (init_to_json_ld_types (λ _, "2025-01-01T00:00:00") (λ _, "")
              (λ d, d) fields_dict_issuer c Hc)
    as (data & l & Hd & Hl & Hvc & Ho).
  exists c, data, l. repeat split; assumption.
Defined.
